(** * finder.py and hello.py: a shallow embedding and its properties

    [finder.py] scans open text streams for words of a given length;
    [hello.py] prints a greeting.  Python text is a sequence of Unicode
    code points, streams are mutable objects that are consumed as they are
    read, and a process ends with an exit status and what it wrote to its
    two output streams.  The embedding keeps these three things explicit. *)

From Stdlib Require Import List ZArith NArith Arith Bool Lia.
From Stdlib Require Import Strings.Ascii.
From Stdlib Require Strings.String Numbers.DecimalString Numbers.DecimalPos.
Import String.StringSyntax.
Delimit Scope string_scope with string.
From Stdlib Require Import Sorting.Sorted Sorting.Permutation.
Import ListNotations.

Set Implicit Arguments.

(* ================================================================== *)
(** ** Python text *)

Module PyStr.

(** A [str] is a sequence of code points. *)
Definition codepoint := N.
Definition pystr := list codepoint.

(** String literals of the development, written in ASCII. *)
Definition py (s : String.string) : pystr :=
  map N_of_ascii (String.list_ascii_of_string s).
Arguments py s%_string.

Definition LF : codepoint := 10%N.
Definition SPACE : codepoint := 32%N.
Definition DQUOTE : codepoint := 34%N.

Definition between (lo hi c : codepoint) : bool :=
  (N.leb lo c && N.leb c hi)%bool.

(** The class [[a-zA-Z]] of the regular expression in [find_words]. *)
Definition is_ascii_letter (c : codepoint) : bool :=
  (between 97%N 122%N c || between 65%N 90%N c)%bool.

(** The decimal digits [0] to [9]. *)
Definition is_digit (c : codepoint) : bool := between 48%N 57%N c.

(** [str.isspace] on one code point: what [str.split()] separates on. *)
Definition isspace (c : codepoint) : bool :=
  (between 9%N 13%N c || between 28%N 32%N c
   || N.eqb c 133%N || N.eqb c 160%N || N.eqb c 5760%N
   || between 8192%N 8202%N c || N.eqb c 8232%N || N.eqb c 8233%N
   || N.eqb c 8239%N || N.eqb c 8287%N || N.eqb c 12288%N)%bool.

(** [line.split()]: the maximal runs of non-whitespace, in order.
    [cur] is the run being read, most recent code point first. *)
Definition flush (cur : pystr) : list pystr :=
  match cur with
  | [] => []
  | _ :: _ => [rev cur]
  end.

Fixpoint split_from (cur s : pystr) : list pystr :=
  match s with
  | [] => flush cur
  | c :: s' =>
      if isspace c then flush cur ++ split_from [] s'
      else split_from (c :: cur) s'
  end.

Definition str_split (s : pystr) : list pystr := split_from [] s.

(** [sep.join(parts)] *)
Fixpoint join (sep : pystr) (parts : list pystr) : pystr :=
  match parts with
  | [] => []
  | [p] => p
  | p :: rest => p ++ sep ++ join sep rest
  end.

(** [str(n)] for an [int]. *)
Definition str_of_int (n : Z) : pystr :=
  py (DecimalString.NilEmpty.string_of_int (Z.to_int n)).

(** [format(s, '>w')], the alignment [f'{i:3}'] gives an [int]. *)
Definition rjust (w : nat) (s : pystr) : pystr :=
  repeat SPACE (w - length s) ++ s.

(** [s.lstrip()] *)
Fixpoint lstrip (s : pystr) : pystr :=
  match s with
  | c :: s' => if isspace c then lstrip s' else s
  | [] => []
  end.

(** [sub in s] *)
Definition contains (sub s : pystr) : Prop :=
  exists pre post, s = pre ++ sub ++ post.

(** [enumerate(l, start)] *)
Fixpoint enumerate {A : Type} (start : Z) (l : list A) : list (Z * A) :=
  match l with
  | [] => []
  | x :: l' => (start, x) :: enumerate (start + 1) l'
  end.

End PyStr.
Import PyStr.

(* ================================================================== *)
(** ** Text streams *)

Module Stream.

(** A [TextIO] object is named by a handle; the store gives, for each
    open stream, the text it has not delivered yet.  Two occurrences of
    one handle in a list are one stream. *)
Definition handle := nat.
Definition store := handle -> pystr.

(** The lines a stream delivers when it is iterated to its end: each
    runs up to and including a line feed, the last one may lack it. *)
Fixpoint lines_from (cur s : pystr) : list pystr :=
  match s with
  | [] => flush cur
  | c :: s' =>
      if N.eqb c LF then rev (c :: cur) :: lines_from [] s'
      else lines_from (c :: cur) s'
  end.

Definition readlines (s : pystr) : list pystr := lines_from [] s.

(** After [for line in fh] the stream is at its end. *)
Definition consume (fh : handle) (sigma : store) : store :=
  fun h => if Nat.eqb h fh then [] else sigma h.

(** Code that reads streams: from the store it starts in to its result
    and the store it leaves. *)
Definition io (A : Type) : Type := store -> A * store.

Definition ret {A : Type} (x : A) : io A := fun sigma => (x, sigma).

Definition bind {A B : Type} (m : io A) (k : A -> io B) : io B :=
  fun sigma => let (x, sigma') := m sigma in k x sigma'.

Declare Scope io_scope.
Delimit Scope io_scope with io.
Bind Scope io_scope with io.
Notation "x <- m ;; k" := (bind m (fun x => k))
  (at level 61, m at next level, right associativity) : io_scope.

(** Everything [for line in fh] binds [line] to, in order. *)
Definition iter_lines (fh : handle) : io (list pystr) :=
  fun sigma => (readlines (sigma fh), consume fh sigma).

(** A store with the given texts at handles 0, 1, ... and nothing to
    read anywhere else. *)
Definition store_of (texts : list pystr) : store :=
  fun h => nth h texts [].

End Stream.
Import Stream.

(* ================================================================== *)
(** ** finder.py *)

(** What a finished process leaves: its two output streams and its exit
    status. *)
Record outcome := Outcome { stdout : pystr; stderr : pystr; status : Z }.

(** The namespace [parser.parse_args()] returns to [get_args]: the opened
    [FILE] arguments and the value of [--len]. *)
Module Namespace.
Record t := mk { file : list handle; len : Z }.
End Namespace.

(** [class Args(NamedTuple)] *)
Module Args.
Record t := mk { file : list handle; length : Z }.
End Args.

Module Finder.

(** [clean = partial(re.sub, '[^a-zA-Z]', '')] *)
Definition clean (word : pystr) : pystr := filter is_ascii_letter word.

(** [accept = lambda word: len(word) == word_length] *)
Definition accept (word_length : Z) (word : pystr) : bool :=
  Z.eqb (Z.of_nat (length word)) word_length.

(** [words.extend(filter(accept, map(clean, line.split())))] *)
Definition extend_line (word_length : Z) (words : list pystr)
    (line : pystr) : list pystr :=
  words ++ filter (accept word_length) (map clean (str_split line)).

(** The loop [for fh in fhs] from the point where [words] holds what was
    found so far: the inner loop extends [words] once for every line the
    stream delivers. *)
Fixpoint scan_fhs (word_length : Z) (fhs : list handle)
    (words : list pystr) : io (list pystr) :=
  match fhs with
  | [] => ret words
  | fh :: rest =>
      (lines <- iter_lines fh ;;
       scan_fhs word_length rest
                (fold_left (extend_line word_length) lines words))%io
  end.

(** [find_words(word_length, fhs)], starting from [words = []]. *)
Definition find_words (word_length : Z) (fhs : list handle)
    : io (list pystr) :=
  scan_fhs word_length fhs [].

Section Cli.

(** [parser.prog] and the text of [parser.format_usage()]. *)
Variables prog usage : pystr.

(** [parser.error(message)]: usage and message on standard error, exit
    status 2. *)
Definition parser_error (message : pystr) : outcome :=
  {| stdout := [];
     stderr := usage ++ prog ++ py ": error: " ++ message ++ [LF];
     status := 2 |}.

(** [f'--len "{args.len}" must be > 0'] *)
Definition len_message (len : Z) : pystr :=
  py "--len " ++ [DQUOTE] ++ str_of_int len ++ [DQUOTE]
    ++ py " must be > 0".

(** [get_args()], from the parsed namespace on. *)
Definition get_args (args : Namespace.t) : outcome + Args.t :=
  if Z.ltb (Namespace.len args) 0 then
    inl (parser_error (len_message (Namespace.len args)))
  else
    inr (Args.mk (Namespace.file args) (Namespace.len args)).

(** [lambda i, w: f'{i:3}: {w}'] *)
Definition listing_line (iw : Z * pystr) : pystr :=
  rjust 3 (str_of_int (fst iw)) ++ py ": " ++ snd iw.

(** [f'Found no words of length {args.length}!'] *)
Definition none_message (length : Z) : pystr :=
  py "Found no words of length " ++ str_of_int length ++ py "!".

(** [main()]: [print] ends its text with a line feed and the process
    ends with status 0; [sys.exit(message)] writes the message and a
    line feed to standard error and ends with status 1. *)
Definition main (ns : Namespace.t) : io outcome :=
  match get_args ns with
  | inl failed => ret failed
  | inr args =>
      (words <- find_words (Args.length args) (Args.file args) ;;
       ret match words with
           | _ :: _ =>
               {| stdout :=
                    join [LF] (map listing_line (enumerate 1 words))
                      ++ [LF];
                  stderr := [];
                  status := 0 |}
           | [] =>
               {| stdout := [];
                  stderr := none_message (Args.length args) ++ [LF];
                  status := 1 |}
           end)%io
  end.

End Cli.

End Finder.
Import Finder.

(* ================================================================== *)
(** ** hello.py *)

Module Hello.

(** Modelled from the spec: [hello.py] itself is not among the sources,
    only its tests are.  The greeter takes the value of [--name], which
    defaults to [World], prints [Hello, <name>!] and ends with status
    0. *)
Definition main (name : option pystr) : outcome :=
  let name := match name with Some n => n | None => py "World" end in
  {| stdout := py "Hello, " ++ name ++ py "!" ++ [LF];
     stderr := [];
     status := 0 |}.

End Hello.

(* ================================================================== *)
(** ** What a call reads *)

Module Discovery.

(** The lines each stream of [fhs] delivers when [find_words] reaches it,
    in the order of [fhs].  A stream listed a second time has nothing
    left. *)
Fixpoint lines_read (fhs : list handle) (sigma : store)
    : list (list pystr) :=
  match fhs with
  | [] => []
  | fh :: rest => readlines (sigma fh) :: lines_read rest (consume fh sigma)
  end.

(** The store once every stream of [fhs] has been read to its end. *)
Definition exhaust (fhs : list handle) (sigma : store) : store :=
  fold_left (fun s fh => consume fh s) fhs sigma.

(** Source by source and line by line, the tokens of each line. *)
Definition tokens_read (fhs : list handle) (sigma : store)
    : list (list (list pystr)) :=
  map (map str_split) (lines_read fhs sigma).

(** The same tokens as one sequence: sources in order, within a source
    its lines in order, within a line its tokens in order. *)
Definition flatten (T : list (list (list pystr))) : list pystr :=
  concat (map (@concat pystr) T).

(** A position: source index, line index in the source, token index in
    the line, all from 0. *)
Definition position := (nat * nat * nat)%type.

Definition token_at (T : list (list (list pystr))) (p : position)
    : option pystr :=
  let '(i, j, k) := p in
  match nth_error T i with
  | Some lines =>
      match nth_error lines j with
      | Some tokens => nth_error tokens k
      | None => None
      end
  | None => None
  end.

(** Source first, then line, then token. *)
Definition pos_lt (p q : position) : Prop :=
  let '(i, j, k) := p in
  let '(i', j', k') := q in
  i < i' \/ (i = i' /\ (j < j' \/ (j = j' /\ k < k'))).

Fixpoint index_from {A : Type} (n : nat) (l : list A) : list (nat * A) :=
  match l with
  | [] => []
  | x :: l' => (n, x) :: index_from (S n) l'
  end.

(** Every token with its position, in the order of [flatten]. *)
Definition located (T : list (list (list pystr)))
    : list (position * pystr) :=
  flat_map (fun il =>
    flat_map (fun jt =>
      map (fun kt => ((fst il, fst jt, fst kt), snd kt))
          (index_from 0 (snd jt)))
      (index_from 0 (snd il)))
    (index_from 0 T).

(** A token without a single ASCII letter. *)
Definition letterless (token : pystr) : bool :=
  forallb (fun c => negb (is_ascii_letter c)) token.

End Discovery.
Import Discovery.

Local Open Scope Z_scope.

(** The listing as [f'{i}: {w}'] would print it. *)
Definition plain_line (iw : Z * pystr) : pystr :=
  str_of_int (fst iw) ++ py ": " ++ snd iw.

(** The sentence of the unit test. *)
Definition fox : pystr := py "The quick brown fox jumps over the lazy dog.".

(** The program name and usage line of [./finder.py]. *)
Definition finder_prog : pystr := py "finder.py".
Definition finder_usage : pystr :=
  py "usage: finder.py [-h] [-l int] FILE [FILE ...]" ++ [LF].

(** The text each stream of [fhs] still holds when [find_words] reaches
    it, in the order of [fhs]. *)
Fixpoint texts_read (fhs : list handle) (sigma : store) : list pystr :=
  match fhs with
  | [] => []
  | fh :: rest => sigma fh :: texts_read rest (consume fh sigma)
  end.

(** A text of whitespace only, the empty text included. *)
Definition blank (s : pystr) : bool := forallb isspace s.

(** Case analysis on the comparisons of a character class. *)
Ltac class_cases :=
  unfold is_digit, isspace, is_ascii_letter, between, LF, SPACE in *;
  repeat match goal with
    | H : context [N.leb ?a ?b] |- _ =>
        destruct (N.leb_spec a b); cbn in H; try discriminate H; try lia
    | |- context [N.leb ?a ?b] =>
        destruct (N.leb_spec a b); cbn; try lia
    | |- context [N.eqb ?a ?b] =>
        destruct (N.eqb_spec a b); cbn; try lia
    end;
  try reflexivity; try lia.

(* ================================================================== *)
(** ** Concrete runs *)

Example str_split_runs :
  str_split (py "  The quick" ++ [9%N] ++ py "fox. " ++ [LF])
  = [py "The"; py "quick"; py "fox."].
Proof. reflexivity. Qed.

Example readlines_runs :
  readlines (py "ab" ++ [LF] ++ [LF] ++ py "c")
  = [py "ab" ++ [LF]; [LF]; py "c"].
Proof. reflexivity. Qed.

Example clean_runs :
  clean (py "dog.") = py "dog" /\ clean (py "it's") = py "its"
  /\ clean (py "1,234") = [].
Proof. repeat split. Qed.

(** The remaining lengths of the unit test. *)
Example find_words_fox_2_5 :
  fst (find_words 2 [0%nat] (store_of [fox])) = []
  /\ fst (find_words 5 [0%nat] (store_of [fox]))
     = [py "quick"; py "brown"; py "jumps"].
Proof. split; vm_compute; reflexivity. Qed.

(** Two streams with the same text are read one after the other; one
    stream listed twice is read once. *)
Example find_words_two_streams :
  fst (find_words 4 [0%nat; 1%nat] (store_of [fox; fox]))
  = [py "over"; py "lazy"; py "over"; py "lazy"].
Proof. vm_compute. reflexivity. Qed.

Example find_words_shared_stream :
  fst (find_words 4 [0%nat; 0%nat] (store_of [fox]))
  = [py "over"; py "lazy"].
Proof. vm_compute. reflexivity. Qed.

Example located_runs :
  located [[[py "a"; py "b"]; []]; [[py "c"]]]
  = [((0, 0, 0)%nat, py "a"); ((0, 0, 1)%nat, py "b");
     ((1, 0, 0)%nat, py "c")].
Proof. reflexivity. Qed.

(* ================================================================== *)
(** ** The loops of [find_words] *)

Section Loops.

Variable word_length : Z.

Lemma fold_extend_line (lines : list pystr) :
  forall words,
    fold_left (extend_line word_length) lines words
    = words ++ filter (accept word_length)
                      (map clean (concat (map str_split lines))).
Proof.
  induction lines as [|line lines IH]; intros words; cbn [fold_left].
  - cbn. now rewrite app_nil_r.
  - rewrite IH. unfold extend_line.
    cbn [map concat]. rewrite map_app, filter_app, app_assoc.
    reflexivity.
Qed.

Lemma scan_fhs_eq (fhs : list handle) :
  forall words sigma,
    scan_fhs word_length fhs words sigma
    = (words ++ filter (accept word_length)
                       (map clean (flatten (tokens_read fhs sigma))),
       exhaust fhs sigma).
Proof.
  induction fhs as [|fh fhs IH]; intros words sigma.
  - cbn. now rewrite app_nil_r.
  - cbn [scan_fhs]. unfold bind, iter_lines.
    rewrite IH, fold_extend_line.
    unfold flatten, tokens_read, exhaust.
    cbn [lines_read map concat fold_left].
    rewrite map_app, filter_app, app_assoc.
    reflexivity.
Qed.

(** The words returned are the accepted ones among the cleaned tokens
    read, and every stream of the list is left at its end. *)
Lemma find_words_eq (fhs : list handle) (sigma : store) :
  find_words word_length fhs sigma
  = (filter (accept word_length)
            (map clean (flatten (tokens_read fhs sigma))),
     exhaust fhs sigma).
Proof. unfold find_words. now rewrite scan_fhs_eq. Qed.

End Loops.

Lemma accept_true (L : Z) (w : pystr) :
  accept L w = true <-> Z.of_nat (length w) = L.
Proof. unfold accept. apply Z.eqb_eq. Qed.

Lemma clean_letters (w : pystr) :
  Forall (fun c => is_ascii_letter c = true) (clean w).
Proof.
  unfold clean. apply Forall_forall. intros c Hc.
  now apply filter_In in Hc.
Qed.

Lemma clean_idem (w : pystr) : clean (clean w) = clean w.
Proof.
  unfold clean. induction w as [|c w IH]; cbn; [reflexivity|].
  destruct (is_ascii_letter c) eqn:E; cbn; rewrite ?E, IH; reflexivity.
Qed.

(** C1: every string [find_words] returns has exactly the requested
    length; it is the cleaned form of a token that was read, so it
    consists of ASCII letters only and cleaning it again changes
    nothing. *)
Theorem find_words_lengths (L : Z) (fhs : list handle) (sigma : store) :
  Forall (fun w =>
            Z.of_nat (length w) = L
            /\ In w (map clean (flatten (tokens_read fhs sigma)))
            /\ Forall (fun c => is_ascii_letter c = true) w
            /\ clean w = w)
         (fst (find_words L fhs sigma)).
Proof.
  rewrite find_words_eq. cbn [fst].
  apply Forall_forall. intros w Hw.
  apply filter_In in Hw. destruct Hw as [Hin Hacc].
  split; [now apply accept_true|]. split; [exact Hin|].
  apply in_map_iff in Hin. destruct Hin as [t [<- _]].
  split; [apply clean_letters | apply clean_idem].
Qed.

(** C3: the unit test's sentence, read from a fresh stream for each call:
    four words of length 3, two of length 4, none of length 1 or 6. *)
Theorem find_words_fox :
  fst (find_words 3 [0%nat] (store_of [fox]))
    = [py "The"; py "fox"; py "the"; py "dog"]
  /\ fst (find_words 4 [0%nat] (store_of [fox])) = [py "over"; py "lazy"]
  /\ fst (find_words 1 [0%nat] (store_of [fox])) = []
  /\ fst (find_words 6 [0%nat] (store_of [fox])) = [].
Proof. repeat split; vm_compute; reflexivity. Qed.

Lemma filter_none {A : Type} (f : A -> bool) (l : list A) :
  (forall x, f x = false) -> filter f l = [].
Proof.
  intros Hf. induction l as [|x l IH]; cbn; [reflexivity|].
  now rewrite Hf.
Qed.

(** C9: no string has a negative length, so a negative target matches
    nothing, whatever the streams hold. *)
Theorem find_words_negative (word_length : Z) (fhs : list handle)
    (sigma : store) :
  word_length < 0 -> fst (find_words word_length fhs sigma) = [].
Proof.
  intros Hneg. rewrite find_words_eq. cbn [fst].
  apply filter_none. intros w. unfold accept.
  apply Z.eqb_neq. lia.
Qed.

Lemma find_words_negative_witness :
  -1 < 0 /\ fst (find_words (-1) [0%nat] (store_of [fox])) = [].
Proof.
  split; [lia | apply (@find_words_negative (-1) [0%nat] (store_of [fox])); lia].
Defined.

(* ------------------------------------------------------------------ *)
(** *** Streams shared between calls *)

Lemma lines_read_ext (fhs : list handle) :
  forall s1 s2,
    (forall h, In h fhs -> s1 h = s2 h) ->
    lines_read fhs s1 = lines_read fhs s2.
Proof.
  induction fhs as [|fh fhs IH]; intros s1 s2 Hagree; cbn; [reflexivity|].
  rewrite (Hagree fh (or_introl eq_refl)). f_equal.
  apply IH. intros h Hh. unfold consume.
  destruct (Nat.eqb h fh); [reflexivity | apply Hagree; now right].
Qed.

Lemma exhaust_other (fhs : list handle) :
  forall sigma h, ~ In h fhs -> exhaust fhs sigma h = sigma h.
Proof.
  unfold exhaust.
  induction fhs as [|fh fhs IH]; intros sigma h Hh; cbn; [reflexivity|].
  rewrite IH by (intros Hin; apply Hh; now right).
  unfold consume. destruct (Nat.eqb_spec h fh) as [->|]; [|reflexivity].
  exfalso. apply Hh. now left.
Qed.

Lemma exhaust_listed (fhs : list handle) :
  forall sigma h, In h fhs -> exhaust fhs sigma h = [].
Proof.
  unfold exhaust.
  induction fhs as [|fh fhs IH]; intros sigma h Hh; [destruct Hh|].
  cbn [fold_left].
  destruct (in_dec Nat.eq_dec h fhs) as [Hin|Hout]; [now apply IH|].
  fold (exhaust fhs (consume fh sigma)). rewrite exhaust_other by exact Hout.
  destruct Hh as [->|Hin]; [|contradiction].
  unfold consume. now rewrite Nat.eqb_refl.
Qed.

(** A second pass over streams that were read finds nothing. *)
Lemma find_words_again (L : Z) (fhs : list handle) (sigma : store) :
  fst (find_words L fhs (snd (find_words L fhs sigma))) = [].
Proof.
  rewrite !find_words_eq. cbn [fst snd]. unfold tokens_read.
  rewrite (@lines_read_ext fhs (exhaust fhs sigma) (fun _ => [])).
  - clear sigma.
    assert (H : forall s, (forall h, s h = []) ->
                flatten (map (map str_split) (lines_read fhs s)) = []).
    { induction fhs as [|fh fhs IH]; intros s Hs; [reflexivity|].
      cbn [lines_read map]. unfold flatten in *. cbn [map concat].
      rewrite Hs. cbn. apply IH. intros h. unfold consume.
      destruct (Nat.eqb h fh); [reflexivity | apply Hs]. }
    now rewrite H.
  - intros h Hh. now apply exhaust_listed.
Qed.

Lemma lines_read_app (A B : list handle) :
  forall sigma,
    lines_read (A ++ B) sigma
    = lines_read A sigma ++ lines_read B (exhaust A sigma).
Proof.
  induction A as [|fh A IH]; intros sigma; [reflexivity|].
  cbn [app lines_read]. now rewrite IH.
Qed.

(** C10: [find_words] distributes over the concatenation of source lists.
    The call on [A ++ B] is the call on [A] followed by the call on [B],
    with the words of the first before the words of the second: it
    returns the same list and leaves the streams in the same state.  On
    no source it returns no word and reads nothing.  When no stream of
    [A] is also in [B], the call on [B] finds the same words whether or
    not the call on [A] came first, and the equation holds with all three
    calls started from the same state of the streams. *)
Theorem find_words_app (L : Z) (A B : list handle) (sigma : store) :
  find_words L (A ++ B) sigma
    = (wa <- find_words L A ;;
       wb <- find_words L B ;;
       ret (wa ++ wb))%io sigma
  /\ find_words L [] sigma = ([], sigma)
  /\ ((forall h, In h A -> ~ In h B) ->
      fst (find_words L (A ++ B) sigma)
        = fst (find_words L A sigma) ++ fst (find_words L B sigma)).
Proof.
  assert (Hseq : find_words L (A ++ B) sigma
    = (filter (accept L) (map clean (flatten (tokens_read A sigma)))
         ++ filter (accept L)
              (map clean (flatten (tokens_read B (exhaust A sigma)))),
       exhaust B (exhaust A sigma))).
  { rewrite find_words_eq. unfold tokens_read, flatten, exhaust.
    rewrite lines_read_app, !map_app, concat_app, map_app, filter_app.
    now rewrite fold_left_app. }
  split; [|split; [reflexivity|]].
  - unfold bind, ret. now rewrite Hseq, !find_words_eq.
  - intros Hdisj. rewrite Hseq, !find_words_eq. cbn [fst]. f_equal.
    unfold tokens_read.
    rewrite (@lines_read_ext B (exhaust A sigma) sigma); [reflexivity|].
    intros h Hh. apply exhaust_other. intros Hin. exact (Hdisj h Hin Hh).
Qed.

Lemma find_words_app_witness :
  (forall h, In h [0%nat] -> ~ In h [1%nat])
  /\ fst (find_words 3 ([0%nat] ++ [1%nat]) (store_of [fox; py "dog, cat"]))
     = fst (find_words 3 [0%nat] (store_of [fox; py "dog, cat"]))
         ++ fst (find_words 3 [1%nat] (store_of [fox; py "dog, cat"])).
Proof.
  assert (Hdisj : forall h, In h [0%nat] -> ~ In h [1%nat]).
  { intros h [<-|[]] [E|[]]. discriminate E. }
  split; [exact Hdisj|].
  exact (proj2 (proj2 (@find_words_app 3 [0%nat] [1%nat]
                         (store_of [fox; py "dog, cat"]))) Hdisj).
Defined.

(* ------------------------------------------------------------------ *)
(** *** Target length 0 *)

Lemma accept_zero_clean (token : pystr) :
  accept 0 (clean token) = letterless token.
Proof.
  unfold accept, clean, letterless.
  induction token as [|c token IH]; [reflexivity|].
  cbn [filter forallb]. destruct (is_ascii_letter c); cbn [negb andb].
  - cbn [length]. apply Z.eqb_neq. lia.
  - exact IH.
Qed.

Lemma accept_zero_nil (w : pystr) : accept 0 w = true -> w = [].
Proof.
  intros H. apply accept_true in H. destruct w; [reflexivity|].
  cbn [length] in H. lia.
Qed.

Lemma filter_zero_clean (tokens : list pystr) :
  filter (accept 0) (map clean tokens)
  = map (fun _ => []) (filter letterless tokens).
Proof.
  induction tokens as [|t tokens IH]; [reflexivity|].
  cbn [map filter]. rewrite <- accept_zero_clean.
  destruct (accept 0 (clean t)) eqn:E; [|exact IH].
  cbn [map]. now rewrite IH, (accept_zero_nil _ E).
Qed.

(** C5: with target length 0 a token is accepted exactly when it has no
    ASCII letter, and what is appended for it is the empty string: the
    call returns one empty string for each letterless token read, and
    nothing else.  For any other target length no empty string is
    returned. *)
Theorem find_words_zero :
  (forall token, accept 0 (clean token) = letterless token)
  /\ (forall token, letterless token = true -> clean token = [])
  /\ (forall fhs sigma,
        fst (find_words 0 fhs sigma)
        = map (fun _ => []) (filter letterless (flatten (tokens_read fhs sigma))))
  /\ (forall L fhs sigma, In [] (fst (find_words L fhs sigma)) -> L = 0).
Proof.
  split; [exact accept_zero_clean|]. split.
  { intros token H. apply accept_zero_nil. now rewrite accept_zero_clean. }
  split.
  { intros fhs sigma. rewrite find_words_eq. cbn [fst].
    apply filter_zero_clean. }
  intros L fhs sigma Hin. rewrite find_words_eq in Hin. cbn [fst] in Hin.
  apply filter_In in Hin. destruct Hin as [_ Hacc].
  apply accept_true in Hacc. cbn in Hacc. lia.
Qed.

Lemma find_words_zero_witness :
  letterless (py "--") = true
  /\ clean (py "--") = []
  /\ In [] (fst (find_words 0 [0%nat] (store_of [py "fox -- 42 dog."])))
  /\ 0 = 0.
Proof.
  destruct find_words_zero as [_ [Hclean [_ Honly]]].
  assert (Hin : In [] (fst (find_words 0 [0%nat]
                              (store_of [py "fox -- 42 dog."])))).
  { vm_compute. left. reflexivity. }
  split; [reflexivity|].
  split; [apply Hclean; reflexivity|].
  split; [exact Hin | exact (Honly 0 _ _ Hin)].
Defined.

(* ------------------------------------------------------------------ *)
(** *** Order of discovery *)

Lemma StronglySorted_append {A : Type} (R : A -> A -> Prop)
    (l1 l2 : list A) :
  StronglySorted R l1 -> StronglySorted R l2 ->
  (forall x y, In x l1 -> In y l2 -> R x y) ->
  StronglySorted R (l1 ++ l2).
Proof.
  intros H1 H2 Hcross. induction H1 as [|x l1 Hs IH Hall]; [exact H2|].
  cbn. constructor.
  - apply IH. intros a b Ha Hb. apply Hcross; [now right | exact Hb].
  - apply Forall_app. split; [exact Hall|].
    apply Forall_forall. intros y Hy. apply Hcross; [now left | exact Hy].
Qed.

Section Sortedness.

Context {A B : Type}.

Lemma StronglySorted_flat_map (Q : A -> A -> Prop) (R : B -> B -> Prop)
    (f : A -> list B) (l : list A) :
  StronglySorted Q l ->
  (forall a, In a l -> StronglySorted R (f a)) ->
  (forall a a' b b', Q a a' -> In b (f a) -> In b' (f a') -> R b b') ->
  StronglySorted R (flat_map f l).
Proof.
  intros Hl Hin Hcross. induction Hl as [|a l Hs IH Hall]; [constructor|].
  cbn [flat_map]. apply StronglySorted_append.
  - apply Hin. now left.
  - apply IH. intros a' Ha'. apply Hin. now right.
  - intros b b' Hb Hb'. apply in_flat_map in Hb'.
    destruct Hb' as [a' [Ha' Hb']].
    rewrite Forall_forall in Hall.
    exact (Hcross a a' b b' (Hall a' Ha') Hb Hb').
Qed.

Lemma StronglySorted_map_mono (Q : A -> A -> Prop) (R : B -> B -> Prop)
    (g : A -> B) (l : list A) :
  (forall a a', Q a a' -> R (g a) (g a')) ->
  StronglySorted Q l -> StronglySorted R (map g l).
Proof.
  intros Hmono Hl. induction Hl as [|a l Hs IH Hall]; cbn; constructor.
  - exact IH.
  - apply Forall_forall. intros b Hb. apply in_map_iff in Hb.
    destruct Hb as [a' [<- Ha']]. apply Hmono.
    rewrite Forall_forall in Hall. now apply Hall.
Qed.

Lemma StronglySorted_filter (R : A -> A -> Prop) (keep : A -> bool)
    (l : list A) :
  StronglySorted R l -> StronglySorted R (filter keep l).
Proof.
  intros Hl. induction Hl as [|a l Hs IH Hall]; cbn; [constructor|].
  destruct (keep a); [|exact IH]. constructor; [exact IH|].
  apply Forall_forall. intros b Hb. apply filter_In in Hb.
  rewrite Forall_forall in Hall. now apply Hall.
Qed.

End Sortedness.

Section Indexing.

Context {A : Type}.

Lemma in_index_from (l : list A) :
  forall n i x,
    In (i, x) (index_from n l)
    <-> (n <= i)%nat /\ nth_error l (i - n) = Some x.
Proof.
  induction l as [|y l IH]; intros n i x; cbn [index_from].
  - split; [intros [] | intros [_ H]]. now destruct (i - n)%nat.
  - cbn [In]. rewrite IH. split.
    + intros [E | [Hle Hnth]].
      * injection E as <- <-. split; [lia|]. now rewrite Nat.sub_diag.
      * split; [lia|]. replace (i - n)%nat with (S (i - S n)) by lia.
        exact Hnth.
    + intros [Hle Hnth]. destruct (Nat.eq_dec n i) as [<-|Hne].
      * left. rewrite Nat.sub_diag in Hnth. cbn in Hnth. congruence.
      * right. split; [lia|].
        replace (i - n)%nat with (S (i - S n)) in Hnth by lia.
        exact Hnth.
Qed.

Lemma in_index_from_0 (l : list A) (i : nat) (x : A) :
  In (i, x) (index_from 0 l) <-> nth_error l i = Some x.
Proof.
  rewrite in_index_from, Nat.sub_0_r. split; [now intros [_ H]|].
  intros H. split; [lia | exact H].
Qed.

Lemma index_from_sorted (l : list A) :
  forall n,
    StronglySorted (fun a b => (fst a < fst b)%nat) (index_from n l).
Proof.
  induction l as [|y l IH]; intros n; cbn [index_from]; constructor.
  - apply IH.
  - apply Forall_forall. intros [i x] Hin.
    apply in_index_from in Hin. cbn. lia.
Qed.

Lemma flat_map_index_from {B : Type} (h : A -> list B) (l : list A) :
  forall n, flat_map (fun a => h (snd a)) (index_from n l) = flat_map h l.
Proof.
  induction l as [|y l IH]; intros n; cbn; [reflexivity|].
  now rewrite IH.
Qed.

Lemma map_snd_index_from (l : list A) :
  forall n, map snd (index_from n l) = l.
Proof.
  induction l as [|y l IH]; intros n; cbn; [reflexivity|].
  now rewrite IH.
Qed.

End Indexing.

Lemma map_flat_map {A B C : Type} (g : B -> C) (f : A -> list B)
    (l : list A) :
  map g (flat_map f l) = flat_map (fun a => map g (f a)) l.
Proof.
  induction l as [|a l IH]; cbn; [reflexivity|].
  now rewrite map_app, IH.
Qed.

(** Dropping the positions of [located] gives back [flatten]. *)
Lemma located_tokens (T : list (list (list pystr))) :
  map snd (located T) = flatten T.
Proof.
  unfold located, flatten. rewrite map_flat_map.
  rewrite (flat_map_ext _ (fun il => concat (snd il))).
  - rewrite (flat_map_index_from (@concat pystr)).
    apply flat_map_concat_map.
  - intros [i lines]. cbn [fst snd]. rewrite map_flat_map.
    rewrite (flat_map_ext _ (fun jt => snd jt)).
    + rewrite (flat_map_index_from (fun ts : list pystr => ts)).
      rewrite flat_map_concat_map. now rewrite map_id.
    + intros [j tokens]. cbn [fst snd]. rewrite map_map. cbn [snd].
      apply map_snd_index_from.
Qed.

(** [located] lists exactly the tokens that are there, each at its place. *)
Lemma located_at (T : list (list (list pystr))) (p : position) (t : pystr) :
  In (p, t) (located T) <-> token_at T p = Some t.
Proof.
  destruct p as [[i j] k]. unfold located, token_at. rewrite in_flat_map.
  split.
  - intros [[i' lines] [Hi Hin]]. cbn [fst snd] in Hin.
    apply in_flat_map in Hin. destruct Hin as [[j' tokens] [Hj Hin]].
    cbn [fst snd] in Hin. apply in_map_iff in Hin.
    destruct Hin as [[k' t'] [E Hk]]. cbn [fst snd] in E.
    injection E as -> -> -> ->.
    apply in_index_from_0 in Hi, Hj, Hk. now rewrite Hi, Hj.
  - intros H. destruct (nth_error T i) as [lines|] eqn:Hi; [|discriminate].
    destruct (nth_error lines j) as [tokens|] eqn:Hj; [|discriminate].
    exists (i, lines). split; [now apply in_index_from_0|].
    cbn [fst snd]. apply in_flat_map. exists (j, tokens).
    split; [now apply in_index_from_0|]. cbn [fst snd].
    apply in_map_iff. exists (k, t). split; [reflexivity|].
    now apply in_index_from_0.
Qed.

(** [located] runs through the positions in increasing order. *)
Lemma located_sorted (T : list (list (list pystr))) :
  StronglySorted (fun e e' => pos_lt (fst e) (fst e')) (located T).
Proof.
  unfold located.
  apply StronglySorted_flat_map
    with (Q := fun a b : nat * list (list pystr) => (fst a < fst b)%nat).
  - apply index_from_sorted.
  - intros [i lines] _. cbn [fst snd].
    apply StronglySorted_flat_map
      with (Q := fun a b : nat * list pystr => (fst a < fst b)%nat).
    + apply index_from_sorted.
    + intros [j tokens] _. cbn [fst snd].
      apply StronglySorted_map_mono
        with (Q := fun a b : nat * pystr => (fst a < fst b)%nat).
      * intros [k t] [k' t'] Hlt. cbn in *. right. split; [reflexivity|].
        right. split; [reflexivity | exact Hlt].
      * apply index_from_sorted.
    + intros [j ts] [j' ts'] e e' Hlt He He'. cbn [fst snd] in *.
      apply in_map_iff in He, He'.
      destruct He as [[k t] [<- _]], He' as [[k' t'] [<- _]].
      cbn. right. split; [reflexivity|]. now left.
  - intros [i ls] [i' ls'] e e' Hlt He He'. cbn [fst snd] in *.
    apply in_flat_map in He, He'.
    destruct He as [[j ts] [_ He]], He' as [[j' ts'] [_ He']].
    apply in_map_iff in He, He'.
    destruct He as [[k t] [<- _]], He' as [[k' t'] [<- _]].
    cbn. now left.
Qed.

(** C2: the words come back in the order in which they were discovered.
    There is a list of positions, strictly increasing by source, then by
    line, then by token, that holds every position whose token is
    accepted after cleaning, and the result is the cleaned token at each
    of these positions in turn: nothing is reordered, and a word found at
    several positions is returned once for each.  Equivalently, the result
    is what the acceptance test keeps of the cleaned tokens in reading
    order. *)
Theorem find_words_order (L : Z) (fhs : list handle) (sigma : store) :
  let T := tokens_read fhs sigma in
  fst (find_words L fhs sigma) = filter (accept L) (map clean (flatten T))
  /\ exists ps : list position,
       StronglySorted pos_lt ps
       /\ (forall p, In p ps <->
                     exists t, token_at T p = Some t
                               /\ accept L (clean t) = true)
       /\ map Some (fst (find_words L fhs sigma))
          = map (fun p => option_map clean (token_at T p)) ps.
Proof.
  intros T. rewrite find_words_eq. cbn [fst]. fold T.
  split; [reflexivity|].
  set (kept := filter (fun e => accept L (clean (snd e))) (located T)).
  exists (map fst kept). split; [|split].
  - apply StronglySorted_map_mono
      with (Q := fun e e' : position * pystr => pos_lt (fst e) (fst e')).
    + auto.
    + apply StronglySorted_filter, located_sorted.
  - intros p. unfold kept. rewrite in_map_iff. split.
    + intros [[p' t] [<- Hin]]. apply filter_In in Hin.
      destruct Hin as [Hin Hacc]. exists t.
      split; [now apply located_at | exact Hacc].
    + intros [t [Hat Hacc]]. exists (p, t). split; [reflexivity|].
      apply filter_In. split; [now apply located_at | exact Hacc].
  - rewrite <- located_tokens, !map_map.
    rewrite filter_map_swap. fold kept. rewrite !map_map. apply map_ext_in.
    intros [p t] Hin. unfold kept in Hin. apply filter_In in Hin.
    destruct Hin as [Hin _]. apply located_at in Hin.
    cbn [fst snd]. now rewrite Hin.
Qed.

(* ------------------------------------------------------------------ *)
(** *** Decimal numerals and character classes *)

Lemma digit_not_space (c : codepoint) :
  is_digit c = true -> isspace c = false.
Proof. intros H. class_cases. Qed.

Lemma digit_not_LF (c : codepoint) : is_digit c = true -> c <> LF.
Proof. intros H E. subst c. discriminate H. Qed.

Lemma letter_not_LF (c : codepoint) : is_ascii_letter c = true -> c <> LF.
Proof. intros H E. subst c. discriminate H. Qed.

Lemma uint_digits (d : Decimal.uint) :
  Forall (fun c => is_digit c = true)
         (py (DecimalString.NilEmpty.string_of_uint d)).
Proof.
  induction d; cbn; constructor; try reflexivity; exact IHd.
Qed.

Lemma uint_nonempty (d : Decimal.uint) :
  d <> Decimal.Nil -> py (DecimalString.NilEmpty.string_of_uint d) <> [].
Proof. destruct d; cbn; congruence. Qed.

(** The numeral of a number that is not negative: digits, at least one. *)
Lemma str_of_int_digits (n : Z) :
  0 <= n ->
  Forall (fun c => is_digit c = true) (str_of_int n) /\ str_of_int n <> [].
Proof.
  intros Hn. unfold str_of_int. destruct n as [|p|p]; [| |lia]; cbn.
  - split; [repeat constructor | discriminate].
  - split; [apply uint_digits|].
    apply uint_nonempty, DecimalPos.Unsigned.to_uint_nonnil.
Qed.

Lemma lstrip_spaces (k : nat) (s : pystr) :
  lstrip (repeat SPACE k ++ s) = lstrip s.
Proof. induction k as [|k IH]; [reflexivity | exact IH]. Qed.

Lemma in_enumerate {A : Type} (l : list A) :
  forall start i x, In (i, x) (enumerate start l) -> start <= i /\ In x l.
Proof.
  induction l as [|y l IH]; intros start i x Hin; [destruct Hin|].
  cbn in Hin. destruct Hin as [E|Hin].
  - injection E as <- <-. split; [lia | now left].
  - apply IH in Hin. split; [lia | now right].
Qed.

Lemma enumerate_indices {A : Type} (l : list A) :
  forall start : nat,
    map fst (enumerate (Z.of_nat start) l)
    = map Z.of_nat (seq start (length l)).
Proof.
  induction l as [|y l IH]; intros start; [reflexivity|].
  cbn. f_equal. rewrite <- IH. f_equal. f_equal. lia.
Qed.

Lemma enumerate_items {A : Type} (l : list A) :
  forall start, map snd (enumerate start l) = l.
Proof.
  induction l as [|y l IH]; intros start; cbn; [reflexivity|].
  now rewrite IH.
Qed.

(** [print('\n'.join(lines))] ends every line with a line feed. *)
Lemma join_lines (sep : pystr) (lines : list pystr) :
  lines <> [] ->
  join sep lines ++ sep = concat (map (fun l => l ++ sep) lines).
Proof.
  induction lines as [|l lines IH]; [congruence|]. intros _.
  destruct lines as [|l' lines].
  - cbn. now rewrite app_nil_r.
  - change (join sep (l :: l' :: lines))
      with (l ++ sep ++ join sep (l' :: lines)).
    assert (IH' := IH ltac:(discriminate)). clear IH.
    remember (l' :: lines) as rest eqn:E. clear E.
    cbn [map concat]. rewrite <- IH'. now rewrite <- !app_assoc.
Qed.

(* ------------------------------------------------------------------ *)
(** *** The command line *)

Section CommandLine.

Variables prog usage : pystr.

Lemma get_args_accepts (ns : Namespace.t) :
  0 <= Namespace.len ns ->
  get_args prog usage ns
  = inr (Args.mk (Namespace.file ns) (Namespace.len ns)).
Proof.
  intros H. unfold get_args.
  destruct (Z.ltb_spec (Namespace.len ns) 0); [lia | reflexivity].
Qed.

Lemma get_args_rejects (ns : Namespace.t) :
  Namespace.len ns < 0 ->
  get_args prog usage ns
  = inl (parser_error prog usage (len_message (Namespace.len ns))).
Proof.
  intros H. unfold get_args.
  destruct (Z.ltb_spec (Namespace.len ns) 0); [reflexivity | lia].
Qed.

End CommandLine.

(** C4: [get_args] ends the process with a usage error exactly when the
    length is negative: the exit status is then 2, standard error starts
    with the usage text and its message holds [--len "<value>" must be > 0]
    with the offending value, nothing is printed on standard output and
    no stream is read.  A length of 0 is accepted like any positive
    one. *)
Theorem get_args_len (prog usage : pystr) :
  (forall ns,
      (exists failed,
          get_args prog usage ns = inl failed
          /\ status failed <> 0
          /\ (exists rest, stderr failed = usage ++ rest)
          /\ contains (py "--len " ++ [DQUOTE]
                         ++ str_of_int (Namespace.len ns) ++ [DQUOTE]
                         ++ py " must be > 0")
                      (stderr failed))
      <-> Namespace.len ns < 0)
  /\ (forall ns sigma,
        Namespace.len ns < 0 ->
        status (fst (main prog usage ns sigma)) = 2
        /\ stdout (fst (main prog usage ns sigma)) = []
        /\ get_args prog usage ns = inl (fst (main prog usage ns sigma)))
  /\ (forall files,
        get_args prog usage (Namespace.mk files 0) = inr (Args.mk files 0))
  /\ (forall ns,
        0 <= Namespace.len ns ->
        get_args prog usage ns
        = inr (Args.mk (Namespace.file ns) (Namespace.len ns))).
Proof.
  split; [|split; [|split]].
  - intros ns. split.
    + intros [failed [Hfail _]].
      destruct (Z.lt_ge_cases (Namespace.len ns) 0) as [Hlt|Hge];
        [exact Hlt|].
      rewrite get_args_accepts in Hfail by exact Hge. discriminate Hfail.
    + intros Hlt. eexists. split; [now apply get_args_rejects|].
      cbn [status stderr parser_error]. split; [discriminate|]. split.
      * eexists. reflexivity.
      * exists (usage ++ prog ++ py ": error: "), [LF].
        unfold len_message. now rewrite <- !app_assoc.
  - intros ns sigma Hlt. unfold main.
    rewrite get_args_rejects by exact Hlt. cbn. repeat split.
  - intros files. reflexivity.
  - intros ns. apply get_args_accepts.
Qed.

Lemma get_args_len_witness :
  Namespace.len (Namespace.mk [0%nat] (-1)) < 0
  /\ 0 <= Namespace.len (Namespace.mk [0%nat] 0)
  /\ status (fst (main finder_prog finder_usage (Namespace.mk [0%nat] (-1))
                     (store_of [fox]))) = 2
  /\ get_args finder_prog finder_usage (Namespace.mk [0%nat] 0)
     = inr (Args.mk [0%nat] 0).
Proof.
  destruct (get_args_len finder_prog finder_usage) as [_ [Hmain [_ Hok]]].
  assert (Hneg : Namespace.len (Namespace.mk [0%nat] (-1)) < 0)
    by (cbn; lia).
  assert (Hzero : 0 <= Namespace.len (Namespace.mk [0%nat] 0))
    by (cbn; lia).
  split; [exact Hneg|]. split; [exact Hzero|]. split.
  - exact (proj1 (Hmain _ (store_of [fox]) Hneg)).
  - exact (Hok _ Hzero).
Defined.

Lemma find_words_letters (L : Z) (fhs : list handle) (sigma : store)
    (w : pystr) :
  In w (fst (find_words L fhs sigma)) ->
  Forall (fun c => is_ascii_letter c = true) w.
Proof.
  intros Hin. rewrite find_words_eq in Hin. cbn [fst] in Hin.
  apply filter_In in Hin. destruct Hin as [Hin _].
  apply in_map_iff in Hin. destruct Hin as [t [<- _]].
  apply clean_letters.
Qed.

Lemma listing_line_padding (iw : Z * pystr) :
  listing_line iw
  = repeat SPACE (3 - length (str_of_int (fst iw))) ++ plain_line iw.
Proof.
  unfold listing_line, plain_line, rjust. now rewrite <- app_assoc.
Qed.

Lemma listing_line_lstrip (iw : Z * pystr) :
  0 <= fst iw -> lstrip (listing_line iw) = plain_line iw.
Proof.
  intros Hi. rewrite listing_line_padding, lstrip_spaces.
  unfold plain_line.
  destruct (str_of_int_digits Hi) as [Hdig Hne].
  destruct (str_of_int (fst iw)) as [|d ds]; [congruence|].
  inversion Hdig as [|? ? Hd _]; subst. cbn [app lstrip].
  now rewrite (digit_not_space _ Hd).
Qed.

Lemma listing_line_one_line (iw : Z * pystr) :
  0 <= fst iw ->
  Forall (fun c => is_ascii_letter c = true) (snd iw) ->
  ~ In LF (listing_line iw).
Proof.
  intros Hi Hw Hin. unfold listing_line, rjust in Hin.
  destruct (str_of_int_digits Hi) as [Hdig _].
  rewrite Forall_forall in Hdig, Hw.
  repeat (apply in_app_or in Hin; destruct Hin as [Hin|Hin]).
  - apply repeat_spec in Hin. discriminate Hin.
  - exact (digit_not_LF (Hdig _ Hin) eq_refl).
  - cbn in Hin. destruct Hin as [E|[E|[]]]; discriminate E.
  - exact (letter_not_LF (Hw _ Hin) eq_refl).
Qed.

(** C6, as the code has it: when at least one word is found the process
    ends with status 0 and prints one line for each word, in order, the
    lines numbered from 1.  A line is the number right-aligned in a field
    of three columns, then a colon, a space and the word: with its leading
    spaces removed it reads [<index>: <word>].  No line holds a line feed
    of its own, and nothing goes to standard error. *)
Theorem main_listing (prog usage : pystr) (ns : Namespace.t)
    (sigma : store) :
  0 <= Namespace.len ns ->
  fst (find_words (Namespace.len ns) (Namespace.file ns) sigma) <> [] ->
  let words :=
    fst (find_words (Namespace.len ns) (Namespace.file ns) sigma) in
  let out := fst (main prog usage ns sigma) in
  status out = 0
  /\ stderr out = []
  /\ stdout out
     = concat (map (fun iw => listing_line iw ++ [LF]) (enumerate 1 words))
  /\ map fst (enumerate 1 words) = map Z.of_nat (seq 1 (length words))
  /\ map snd (enumerate 1 words) = words
  /\ Forall (fun iw =>
               listing_line iw
               = repeat SPACE (3 - length (str_of_int (fst iw)))
                   ++ str_of_int (fst iw) ++ py ": " ++ snd iw
               /\ lstrip (listing_line iw)
                  = str_of_int (fst iw) ++ py ": " ++ snd iw
               /\ ~ In LF (listing_line iw))
            (enumerate 1 words).
Proof.
  intros Hlen Hfound words out. subst out. unfold main.
  rewrite get_args_accepts by exact Hlen. cbn [Args.length Args.file].
  unfold bind, ret.
  pose proof (@find_words_letters (Namespace.len ns) (Namespace.file ns)
                sigma) as Hletters.
  subst words. revert Hfound Hletters.
  destruct (find_words (Namespace.len ns) (Namespace.file ns) sigma)
    as [words sigma'].
  cbn [fst]. intros Hfound Hletters.
  destruct words as [|w words]; [congruence|].
  cbn [fst status stderr stdout].
  split; [reflexivity|]. split; [reflexivity|]. split.
  { rewrite <- (map_map listing_line (fun l => l ++ [LF])).
    apply join_lines. discriminate. }
  split; [apply (enumerate_indices (w :: words) 1)|].
  split; [apply enumerate_items|].
  apply Forall_forall. intros [i x] Hin.
  apply in_enumerate in Hin. destruct Hin as [Hi Hx].
  assert (Hi0 : 0 <= fst (i, x)) by (cbn; lia).
  split; [apply listing_line_padding|].
  split; [now apply listing_line_lstrip|].
  apply listing_line_one_line; [exact Hi0 | now apply Hletters].
Qed.

Lemma main_listing_witness :
  0 <= Namespace.len (Namespace.mk [0%nat] 4)
  /\ fst (find_words 4 [0%nat] (store_of [fox])) <> []
  /\ status (fst (main finder_prog finder_usage (Namespace.mk [0%nat] 4)
                     (store_of [fox]))) = 0
  /\ stdout (fst (main finder_prog finder_usage (Namespace.mk [0%nat] 4)
                     (store_of [fox])))
     = (py "  1: over" ++ [LF]) ++ (py "  2: lazy" ++ [LF]).
Proof.
  assert (Hlen : 0 <= Namespace.len (Namespace.mk [0%nat] 4)) by (cbn; lia).
  assert (Hfound : fst (find_words (Namespace.len (Namespace.mk [0%nat] 4))
                          (Namespace.file (Namespace.mk [0%nat] 4))
                          (store_of [fox])) <> [])
    by (vm_compute; discriminate).
  split; [exact Hlen|]. split; [exact Hfound|].
  destruct (@main_listing finder_prog finder_usage _ _ Hlen Hfound)
    as [Hstatus [_ [Hout _]]].
  split; [exact Hstatus|].
  rewrite Hout. vm_compute. reflexivity.
Defined.

(** The listing is not the plain [<index>: <word>] of the specification:
    for the unit test's sentence and length 3 four words are found and the
    process prints [  1: The] and so on, each number preceded by two
    spaces, not [1: The]. *)
Lemma main_listing_not_plain :
  fst (find_words 3 [0%nat] (store_of [fox]))
    = [py "The"; py "fox"; py "the"; py "dog"]
  /\ stdout (fst (main finder_prog finder_usage (Namespace.mk [0%nat] 3)
                     (store_of [fox])))
     = py "  1: The" ++ [LF] ++ py "  2: fox" ++ [LF]
         ++ py "  3: the" ++ [LF] ++ py "  4: dog" ++ [LF]
  /\ join [LF] (map plain_line
                    (enumerate 1 [py "The"; py "fox"; py "the"; py "dog"]))
       ++ [LF]
     = py "1: The" ++ [LF] ++ py "2: fox" ++ [LF]
         ++ py "3: the" ++ [LF] ++ py "4: dog" ++ [LF]
  /\ stdout (fst (main finder_prog finder_usage (Namespace.mk [0%nat] 3)
                     (store_of [fox])))
     <> join [LF] (map plain_line
                       (enumerate 1 [py "The"; py "fox"; py "the"; py "dog"]))
          ++ [LF].
Proof.
  split; [vm_compute; reflexivity|].
  split; [vm_compute; reflexivity|].
  split; [vm_compute; reflexivity|].
  vm_compute. discriminate.
Qed.

(** C7: when no word is found the process ends with status 1, has printed
    nothing on standard output, and standard error holds
    [Found no words of length <length>!] with the requested length, and a
    line feed. *)
Theorem main_none_found (prog usage : pystr) (ns : Namespace.t)
    (sigma : store) :
  0 <= Namespace.len ns ->
  fst (find_words (Namespace.len ns) (Namespace.file ns) sigma) = [] ->
  let out := fst (main prog usage ns sigma) in
  status out = 1
  /\ status out <> 0
  /\ stdout out = []
  /\ stderr out
     = py "Found no words of length " ++ str_of_int (Namespace.len ns)
         ++ py "!" ++ [LF].
Proof.
  intros Hlen Hnone out. subst out. unfold main.
  rewrite get_args_accepts by exact Hlen. cbn [Args.length Args.file].
  unfold bind, ret.
  destruct (find_words (Namespace.len ns) (Namespace.file ns) sigma)
    as [ws sigma'].
  cbn [fst] in Hnone. subst ws. cbn [fst status stdout stderr].
  split; [reflexivity|]. split; [discriminate|]. split; [reflexivity|].
  unfold none_message. now rewrite <- !app_assoc.
Qed.

Lemma main_none_found_witness :
  0 <= Namespace.len (Namespace.mk [0%nat] 6)
  /\ fst (find_words 6 [0%nat] (store_of [fox])) = []
  /\ status (fst (main finder_prog finder_usage (Namespace.mk [0%nat] 6)
                     (store_of [fox]))) = 1
  /\ stderr (fst (main finder_prog finder_usage (Namespace.mk [0%nat] 6)
                     (store_of [fox])))
     = py "Found no words of length 6!" ++ [LF].
Proof.
  assert (Hlen : 0 <= Namespace.len (Namespace.mk [0%nat] 6)) by (cbn; lia).
  assert (Hnone : fst (find_words (Namespace.len (Namespace.mk [0%nat] 6))
                         (Namespace.file (Namespace.mk [0%nat] 6))
                         (store_of [fox])) = [])
    by (vm_compute; reflexivity).
  split; [exact Hlen|]. split; [exact Hnone|].
  destruct (@main_none_found finder_prog finder_usage _ _ Hlen Hnone)
    as [Hstatus [_ [_ Herr]]].
  split; [exact Hstatus|].
  rewrite Herr. vm_compute. reflexivity.
Defined.

(* ------------------------------------------------------------------ *)
(** *** The greeter *)

(** C8: the greeter prints the one line [Hello, <name>!], with [World] for
    the name when none is given, writes nothing to standard error and ends
    with status 0 for every name; equal names give equal output. *)
Theorem hello_greets :
  (forall name,
      Hello.main (Some name)
      = {| stdout := py "Hello, " ++ name ++ py "!" ++ [LF];
           stderr := [];
           status := 0 |})
  /\ Hello.main None
     = {| stdout := py "Hello, World!" ++ [LF]; stderr := []; status := 0 |}
  /\ Hello.main (Some (py "Universe"))
     = {| stdout := py "Hello, Universe!" ++ [LF];
          stderr := [];
          status := 0 |}
  /\ (forall name, status (Hello.main name) = 0
                   /\ stderr (Hello.main name) = []).
Proof.
  split; [reflexivity|]. split; [vm_compute; reflexivity|].
  split; [vm_compute; reflexivity|]. intros [n|]; now split.
Qed.

(* ================================================================== *)
(** ** Beyond single lines: whole texts *)

Lemma split_from_space (a : pystr) :
  forall cur c b,
    isspace c = true ->
    split_from cur (a ++ c :: b) = split_from cur a ++ split_from [] b.
Proof.
  induction a as [|x a IH]; intros cur c b Hc.
  - cbn. now rewrite Hc.
  - cbn. destruct (isspace x).
    + now rewrite IH, app_assoc.
    + now apply IH.
Qed.

(** Splitting line by line finds the tokens of the whole text: a line feed
    is whitespace, so no token runs across it. *)
Lemma split_lines (s : pystr) :
  forall lcur,
    concat (map str_split (lines_from lcur s)) = str_split (rev lcur ++ s).
Proof.
  induction s as [|c s IH]; intros lcur.
  - cbn [lines_from]. rewrite app_nil_r.
    destruct lcur as [|x lcur]; [reflexivity|].
    cbn [flush map concat]. apply app_nil_r.
  - cbn [lines_from]. destruct (N.eqb_spec c LF) as [->|Hc].
    + cbn [map concat]. rewrite IH. cbn [rev app].
      unfold str_split.
      rewrite (split_from_space (rev lcur) [] LF s eq_refl).
      rewrite (split_from_space (rev lcur) [] LF [] eq_refl).
      cbn [split_from flush]. now rewrite app_nil_r.
    + rewrite IH. cbn [rev]. now rewrite <- app_assoc.
Qed.

Lemma lines_read_texts (fhs : list handle) :
  forall sigma, lines_read fhs sigma = map readlines (texts_read fhs sigma).
Proof.
  induction fhs as [|fh fhs IH]; intros sigma; cbn; [reflexivity|].
  now rewrite IH.
Qed.

Lemma flatten_texts (fhs : list handle) (sigma : store) :
  flatten (tokens_read fhs sigma)
  = flat_map str_split (texts_read fhs sigma).
Proof.
  unfold flatten, tokens_read. rewrite lines_read_texts, !map_map.
  rewrite flat_map_concat_map. f_equal. apply map_ext.
  intros text. apply (split_lines text []).
Qed.

Lemma find_words_texts (L : Z) (fhs : list handle) (sigma : store) :
  fst (find_words L fhs sigma)
  = filter (accept L)
           (map clean (flat_map str_split (texts_read fhs sigma))).
Proof. now rewrite find_words_eq, flatten_texts. Qed.

Lemma texts_read_ext (fhs : list handle) :
  forall s1 s2,
    (forall h, In h fhs -> s1 h = s2 h) ->
    texts_read fhs s1 = texts_read fhs s2.
Proof.
  induction fhs as [|fh fhs IH]; intros s1 s2 Hagree; cbn; [reflexivity|].
  rewrite (Hagree fh (or_introl eq_refl)). f_equal.
  apply IH. intros h Hh. unfold consume.
  destruct (Nat.eqb h fh); [reflexivity | apply Hagree; now right].
Qed.

Lemma texts_read_app (A B : list handle) :
  forall sigma,
    texts_read (A ++ B) sigma
    = texts_read A sigma ++ texts_read B (exhaust A sigma).
Proof.
  induction A as [|fh A IH]; intros sigma; [reflexivity|].
  cbn [app texts_read]. now rewrite IH.
Qed.

(** Streams listed once each are read as the store has them. *)
Lemma texts_read_NoDup (fhs : list handle) :
  forall sigma, NoDup fhs -> texts_read fhs sigma = map sigma fhs.
Proof.
  induction fhs as [|fh fhs IH]; intros sigma Hnd; [reflexivity|].
  inversion Hnd as [|? ? Hout Hnd']; subst. cbn [texts_read map].
  f_equal. rewrite IH by exact Hnd'. apply map_ext_in.
  intros h Hh. unfold consume.
  destruct (Nat.eqb_spec h fh) as [->|]; [contradiction | reflexivity].
Qed.

(** The first time a stream is reached it still holds its text. *)
Lemma texts_read_listed (fhs : list handle) :
  forall sigma fh, In fh fhs -> In (sigma fh) (texts_read fhs sigma).
Proof.
  induction fhs as [|h fhs IH]; intros sigma fh Hin; [destruct Hin|].
  cbn [texts_read]. destruct (Nat.eq_dec h fh) as [->|Hne]; [now left|].
  right. destruct Hin as [E|Hin]; [contradiction|].
  specialize (IH (consume h sigma) fh Hin). unfold consume at 1 in IH.
  destruct (Nat.eqb_spec fh h) as [E|_]; [congruence | exact IH].
Qed.

(** Whatever is read is the text of a listed stream, or nothing. *)
Lemma texts_read_from (fhs : list handle) :
  forall sigma text,
    In text (texts_read fhs sigma) ->
    text = [] \/ exists fh, In fh fhs /\ text = sigma fh.
Proof.
  induction fhs as [|h fhs IH]; intros sigma text Hin; [destruct Hin|].
  cbn [texts_read] in Hin. destruct Hin as [<-|Hin].
  - right. exists h. split; [now left | reflexivity].
  - apply IH in Hin. destruct Hin as [->|[fh [Hfh ->]]]; [now left|].
    unfold consume. destruct (Nat.eqb fh h); [now left|].
    right. exists fh. split; [now right | reflexivity].
Qed.

(** X3: line breaks do not matter.  What [find_words] returns is what the
    acceptance test keeps of the cleaned tokens of each stream's whole
    remaining text, split on whitespace in one go; for streams listed once
    each these are the texts the store holds at the call. *)
Theorem find_words_whole_texts (L : Z) (fhs : list handle)
    (sigma : store) :
  fst (find_words L fhs sigma)
  = filter (accept L)
           (map clean (flat_map str_split (texts_read fhs sigma)))
  /\ (NoDup fhs ->
      fst (find_words L fhs sigma)
      = filter (accept L)
               (map clean (flat_map (fun fh => str_split (sigma fh)) fhs))).
Proof.
  split; [apply find_words_texts|].
  intros Hnd. rewrite find_words_texts, texts_read_NoDup by exact Hnd.
  now rewrite !flat_map_concat_map, map_map.
Qed.

Lemma find_words_whole_texts_witness :
  NoDup [0%nat; 1%nat]
  /\ fst (find_words 3 [0%nat; 1%nat]
            (store_of [py "a fox" ++ [LF] ++ py "ran"; py "to the" ++ [LF]]))
     = [py "fox"; py "ran"; py "the"].
Proof.
  assert (Hnd : NoDup [0%nat; 1%nat]).
  { repeat constructor; cbn; intuition discriminate. }
  split; [exact Hnd|].
  rewrite (proj2 (@find_words_whole_texts 3 [0%nat; 1%nat] _) Hnd).
  vm_compute. reflexivity.
Defined.

Lemma find_words_in (L : Z) (fhs : list handle) (sigma : store)
    (w : pystr) :
  In w (fst (find_words L fhs sigma))
  <-> exists fh token,
        In fh fhs /\ In token (str_split (sigma fh))
        /\ clean token = w /\ Z.of_nat (length w) = L.
Proof.
  rewrite find_words_texts, filter_In, in_map_iff, accept_true. split.
  - intros [[token [Hw Hin]] Hlen]. apply in_flat_map in Hin.
    destruct Hin as [text [Htext Htoken]].
    apply texts_read_from in Htext.
    destruct Htext as [->|[fh [Hfh ->]]]; [destruct Htoken|].
    exists fh, token. repeat split; assumption.
  - intros [fh [token [Hfh [Htoken [Hw Hlen]]]]].
    split; [|exact Hlen]. exists token. split; [exact Hw|].
    apply in_flat_map. exists (sigma fh).
    split; [now apply texts_read_listed | exact Htoken].
Qed.

(** X5: a word is returned exactly when some listed stream holds a token
    whose letters, in order, are that word and number [L].  So every token
    with exactly [L] ASCII letters is reported, punctuation and digits
    around or inside it dropped, and nothing else is; how often a stream
    is listed plays no part in this. *)
Theorem find_words_membership (L : Z) (fhs : list handle) (sigma : store)
    (w : pystr) :
  In w (fst (find_words L fhs sigma))
  <-> exists fh token,
        In fh fhs /\ In token (str_split (sigma fh))
        /\ clean token = w /\ Z.of_nat (length w) = L.
Proof. apply find_words_in. Qed.

(* ------------------------------------------------------------------ *)
(** *** Nothing to find *)

Lemma no_words (L : Z) (fhs : list handle) (sigma : store) :
  (forall w, ~ In w (fst (find_words L fhs sigma))) ->
  fst (find_words L fhs sigma) = [].
Proof.
  intros H. destruct (fst (find_words L fhs sigma)) as [|w ws];
    [reflexivity|].
  exfalso. apply (H w). now left.
Qed.

Lemma split_blank (s : pystr) : blank s = true -> str_split s = [].
Proof.
  unfold blank, str_split. induction s as [|c s IH]; [reflexivity|].
  cbn [forallb split_from]. intros H. apply andb_prop in H.
  destruct H as [Hc Hs]. rewrite Hc. cbn [flush app]. now apply IH.
Qed.

Lemma find_words_blank (L : Z) (fhs : list handle) (sigma : store) :
  (forall fh, In fh fhs -> blank (sigma fh) = true) ->
  fst (find_words L fhs sigma) = [].
Proof.
  intros Hblank. apply no_words. intros w Hw.
  apply find_words_in in Hw.
  destruct Hw as [fh [token [Hfh [Htoken _]]]].
  rewrite (split_blank _ (Hblank fh Hfh)) in Htoken. destruct Htoken.
Qed.

Lemma split_from_length (s : pystr) :
  forall cur token,
    In token (split_from cur s) ->
    (length token <= length cur + length s)%nat.
Proof.
  induction s as [|c s IH]; intros cur token Hin; cbn [split_from] in Hin.
  - destruct cur as [|x cur]; [destruct Hin|].
    destruct Hin as [<-|[]]. rewrite length_rev. lia.
  - cbn [length]. destruct (isspace c).
    + apply in_app_or in Hin. destruct Hin as [Hin|Hin].
      * destruct cur as [|x cur]; [destruct Hin|].
        destruct Hin as [<-|[]]. rewrite length_rev. lia.
      * apply IH in Hin. cbn [length] in Hin. lia.
    + apply IH in Hin. cbn [length] in Hin. lia.
Qed.

Lemma clean_length (token : pystr) :
  (length (clean token) <= length token)%nat.
Proof. apply filter_length_le. Qed.

(** X4: streams that are empty or hold only whitespace (blank lines
    included) give no word, for every target length: with length 0 too,
    since an empty line has no token to clean. *)
Theorem find_words_blank_streams (L : Z) (fhs : list handle)
    (sigma : store) :
  (forall fh, In fh fhs -> blank (sigma fh) = true) ->
  fst (find_words L fhs sigma) = [].
Proof. apply find_words_blank. Qed.

Lemma find_words_blank_streams_witness :
  (forall fh, In fh [0%nat; 1%nat] ->
              blank (store_of [[]; [SPACE; LF; 9%N; LF]] fh) = true)
  /\ fst (find_words 0 [0%nat; 1%nat] (store_of [[]; [SPACE; LF; 9%N; LF]]))
     = [].
Proof.
  assert (H : forall fh, In fh [0%nat; 1%nat] ->
                blank (store_of [[]; [SPACE; LF; 9%N; LF]] fh) = true).
  { intros fh [<-|[<-|[]]]; reflexivity. }
  split; [exact H|].
  exact (@find_words_blank_streams 0 [0%nat; 1%nat] _ H).
Defined.

(** X12: a word is never longer than the text it comes from: when the
    target length exceeds the number of code points every listed stream
    holds, nothing is returned. *)
Theorem find_words_too_long (L : Z) (fhs : list handle) (sigma : store) :
  (forall fh, In fh fhs -> Z.of_nat (length (sigma fh)) < L) ->
  fst (find_words L fhs sigma) = [].
Proof.
  intros Hshort. apply no_words. intros w Hw.
  apply find_words_in in Hw.
  destruct Hw as [fh [token [Hfh [Htoken [Hw Hlen]]]]].
  specialize (Hshort fh Hfh).
  apply split_from_length in Htoken. cbn [length] in Htoken.
  pose proof (clean_length token) as Hclean. rewrite Hw in Hclean. lia.
Qed.

Lemma find_words_too_long_witness :
  (forall fh, In fh [0%nat] ->
              Z.of_nat (length (store_of [py "fox, dog"] fh)) < 9)
  /\ fst (find_words 9 [0%nat] (store_of [py "fox, dog"])) = [].
Proof.
  assert (H : forall fh, In fh [0%nat] ->
                Z.of_nat (length (store_of [py "fox, dog"] fh)) < 9).
  { intros fh [<-|[]]. cbn. lia. }
  split; [exact H|].
  exact (@find_words_too_long 9 [0%nat] _ H).
Defined.

(* ------------------------------------------------------------------ *)
(** *** What a call does to the streams *)

Lemma exhaust_at (fhs : list handle) (sigma : store) (h : handle) :
  exhaust fhs sigma h = if in_dec Nat.eq_dec h fhs then [] else sigma h.
Proof.
  destruct (in_dec Nat.eq_dec h fhs) as [Hin|Hout].
  - now apply exhaust_listed.
  - now apply exhaust_other.
Qed.

(** X1: a call reads every listed stream to its end and touches no
    other: afterwards a listed stream has nothing left, whatever it held
    and whether or not any word was found in it, and every other stream
    holds what it held. *)
Theorem find_words_consumes (L : Z) (fhs : list handle) (sigma : store)
    (h : handle) :
  snd (find_words L fhs sigma) h
  = if in_dec Nat.eq_dec h fhs then [] else sigma h.
Proof. rewrite find_words_eq. cbn [snd]. apply exhaust_at. Qed.

(** X2: streams are not rewound.  After a call on [A], a call on streams
    that were all among [A] returns nothing, for any target length. *)
Theorem find_words_not_rewound (L L' : Z) (A B : list handle)
    (sigma : store) :
  incl B A ->
  fst (find_words L' B (snd (find_words L A sigma))) = [].
Proof.
  intros Hincl. apply find_words_blank. intros fh Hfh.
  rewrite find_words_eq. cbn [snd].
  now rewrite (exhaust_listed A sigma fh (Hincl fh Hfh)).
Qed.

Lemma find_words_not_rewound_witness :
  incl [0%nat] [1%nat; 0%nat]
  /\ fst (find_words 3 [0%nat]
            (snd (find_words 4 [1%nat; 0%nat] (store_of [fox; fox])))) = [].
Proof.
  assert (H : incl [0%nat] [1%nat; 0%nat]).
  { intros h [<-|[]]. right. now left. }
  split; [exact H|].
  exact (@find_words_not_rewound 4 3 [1%nat; 0%nat] [0%nat]
           (store_of [fox; fox]) H).
Defined.

(** X7: a stream that was listed before adds nothing when it is listed
    again: the words are the same as without the second mention, and so
    is the state every stream is left in. *)
Theorem find_words_relisted (L : Z) (A B : list handle) (fh : handle)
    (sigma : store) :
  In fh A ->
  fst (find_words L (A ++ fh :: B) sigma) = fst (find_words L (A ++ B) sigma)
  /\ forall h, snd (find_words L (A ++ fh :: B) sigma) h
               = snd (find_words L (A ++ B) sigma) h.
Proof.
  intros Hin. split.
  - rewrite !find_words_texts, !texts_read_app. cbn [texts_read].
    rewrite (exhaust_listed A sigma fh Hin).
    rewrite (@texts_read_ext B (consume fh (exhaust A sigma))
               (exhaust A sigma)).
    + now rewrite !flat_map_app.
    + intros h _. unfold consume.
      destruct (Nat.eqb_spec h fh) as [->|]; [|reflexivity].
      symmetry. now apply exhaust_listed.
  - intros h. rewrite !find_words_eq. cbn [snd]. rewrite !exhaust_at.
    destruct (in_dec Nat.eq_dec h (A ++ fh :: B)) as [H1|H1];
      destruct (in_dec Nat.eq_dec h (A ++ B)) as [H2|H2];
      try reflexivity; exfalso.
    + apply H2. apply in_app_or in H1. apply in_or_app.
      destruct H1 as [H1|[<-|H1]]; auto.
    + apply H1. apply in_app_or in H2. apply in_or_app.
      destruct H2 as [H2|H2]; [now left | right; now right].
Qed.

Lemma find_words_relisted_witness :
  In 0%nat [0%nat]
  /\ fst (find_words 3 ([0%nat] ++ 0%nat :: [1%nat])
            (store_of [fox; py "cat"]))
     = fst (find_words 3 ([0%nat] ++ [1%nat]) (store_of [fox; py "cat"])).
Proof.
  split; [now left|].
  exact (proj1 (@find_words_relisted 3 [0%nat] [1%nat] 0%nat
                  (store_of [fox; py "cat"]) (or_introl eq_refl))).
Defined.

(* ------------------------------------------------------------------ *)
(** *** The order of the sources *)

Lemma consume_swap (x y : handle) (sigma : store) (h : handle) :
  consume x (consume y sigma) h = consume y (consume x sigma) h.
Proof.
  unfold consume. destruct (Nat.eqb h x), (Nat.eqb h y); reflexivity.
Qed.

Lemma texts_read_perm (fhs fhs' : list handle) :
  Permutation fhs fhs' ->
  forall sigma,
    Permutation (texts_read fhs sigma) (texts_read fhs' sigma).
Proof.
  intros HP. induction HP as [|x l l' _ IH|x y l|l l' l'' _ IH1 _ IH2];
    intros sigma.
  - constructor.
  - cbn [texts_read]. constructor. apply IH.
  - cbn [texts_read].
    rewrite (@texts_read_ext l (consume x (consume y sigma))
               (consume y (consume x sigma)))
      by (intros h _; apply consume_swap).
    destruct (Nat.eq_dec x y) as [->|Hne]; [reflexivity|].
    replace (consume y sigma x) with (sigma x)
      by (unfold consume; destruct (Nat.eqb_spec x y); congruence).
    replace (consume x sigma y) with (sigma y)
      by (unfold consume; destruct (Nat.eqb_spec y x); congruence).
    apply perm_swap.
  - eapply perm_trans; [apply IH1 | apply IH2].
Qed.

Lemma filter_perm {A : Type} (keep : A -> bool) (l l' : list A) :
  Permutation l l' -> Permutation (filter keep l) (filter keep l').
Proof.
  intros HP. induction HP as [|x l l' _ IH|x y l|l l' l'' _ IH1 _ IH2].
  - constructor.
  - cbn. destruct (keep x); [now constructor | exact IH].
  - cbn. destruct (keep x), (keep y); try reflexivity. apply perm_swap.
  - eapply perm_trans; eassumption.
Qed.

Lemma find_words_perm (L : Z) (fhs fhs' : list handle) (sigma : store) :
  Permutation fhs fhs' ->
  Permutation (fst (find_words L fhs sigma))
              (fst (find_words L fhs' sigma)).
Proof.
  intros HP. rewrite !find_words_texts.
  apply filter_perm, Permutation_map, Permutation_flat_map.
  now apply texts_read_perm.
Qed.

(** X6: listing the same streams in another order changes only the order
    of the result: the same words are returned, each as often as before,
    so their number is the same too. *)
Theorem find_words_permuted (L : Z) (fhs fhs' : list handle)
    (sigma : store) :
  Permutation fhs fhs' ->
  Permutation (fst (find_words L fhs sigma))
              (fst (find_words L fhs' sigma))
  /\ length (fst (find_words L fhs sigma))
     = length (fst (find_words L fhs' sigma)).
Proof.
  intros HP. pose proof (find_words_perm L sigma HP) as H.
  split; [exact H | now apply Permutation_length].
Qed.

Lemma find_words_permuted_witness :
  Permutation [0%nat; 1%nat] [1%nat; 0%nat]
  /\ Permutation
       (fst (find_words 3 [0%nat; 1%nat] (store_of [fox; py "cat"])))
       (fst (find_words 3 [1%nat; 0%nat] (store_of [fox; py "cat"]))).
Proof.
  split; [apply perm_swap|].
  exact (proj1 (@find_words_permuted 3 [0%nat; 1%nat] [1%nat; 0%nat]
                  (store_of [fox; py "cat"]) (perm_swap _ _ _))).
Defined.

(* ================================================================== *)
(** ** Runs of [main] *)

Section MainRuns.

Variables prog usage : pystr.

Lemma main_rejected (ns : Namespace.t) (sigma : store) :
  Namespace.len ns < 0 ->
  main prog usage ns sigma
  = (parser_error prog usage (len_message (Namespace.len ns)), sigma).
Proof.
  intros H. unfold main. now rewrite get_args_rejects by exact H.
Qed.

Lemma main_accepted (ns : Namespace.t) (sigma : store) :
  0 <= Namespace.len ns ->
  main prog usage ns sigma
  = (match fst (find_words (Namespace.len ns) (Namespace.file ns) sigma)
     with
     | _ :: _ =>
         {| stdout :=
              join [LF]
                (map listing_line
                   (enumerate 1
                      (fst (find_words (Namespace.len ns)
                              (Namespace.file ns) sigma))))
                ++ [LF];
            stderr := [];
            status := 0 |}
     | [] =>
         {| stdout := [];
            stderr := none_message (Namespace.len ns) ++ [LF];
            status := 1 |}
     end,
     snd (find_words (Namespace.len ns) (Namespace.file ns) sigma)).
Proof.
  intros H. unfold main. rewrite get_args_accepts by exact H.
  cbn [Args.length Args.file]. unfold bind, ret.
  destruct (find_words (Namespace.len ns) (Namespace.file ns) sigma)
    as [words sigma'].
  reflexivity.
Qed.


Lemma main_stdout (ns : Namespace.t) (sigma : store) :
  0 <= Namespace.len ns ->
  stdout (fst (main prog usage ns sigma))
  = concat (map (fun iw => listing_line iw ++ [LF])
              (enumerate 1 (fst (find_words (Namespace.len ns)
                                   (Namespace.file ns) sigma)))).
Proof.
  intros H. rewrite main_accepted by exact H. cbn [fst].
  destruct (fst (find_words (Namespace.len ns) (Namespace.file ns) sigma))
    as [|w ws]; [reflexivity|].
  cbn [stdout].
  rewrite <- (map_map listing_line (fun l => l ++ [LF])).
  apply join_lines. discriminate.
Qed.

End MainRuns.

Lemma enumerate_length {A : Type} (l : list A) :
  forall start, length (enumerate start l) = length l.
Proof.
  induction l as [|x l IH]; intros start; cbn; [reflexivity|].
  now rewrite IH.
Qed.

Lemma count_lines (lines : list pystr) :
  (forall l, In l lines -> ~ In LF l) ->
  count_occ N.eq_dec (concat (map (fun l => l ++ [LF]) lines)) LF
  = length lines.
Proof.
  unfold pystr, codepoint.
  induction lines as [|l lines IH]; intros H; [reflexivity|].
  cbn [map concat length]. rewrite !count_occ_app, IH.
  - rewrite (proj1 (count_occ_not_In N.eq_dec l LF) (H l (or_introl eq_refl))).
    reflexivity.
  - intros l' Hl'. apply H. now right.
Qed.

Lemma main_count (prog usage : pystr) (ns : Namespace.t) (sigma : store) :
  0 <= Namespace.len ns ->
  count_occ N.eq_dec (stdout (fst (main prog usage ns sigma))) LF
  = length (fst (find_words (Namespace.len ns) (Namespace.file ns) sigma)).
Proof.
  intros H. rewrite main_stdout by exact H.
  rewrite <- (map_map listing_line (fun l => l ++ [LF])).
  rewrite count_lines; [now rewrite length_map, enumerate_length|].
  intros l Hl. apply in_map_iff in Hl. destruct Hl as [[i w] [<- Hin]].
  apply in_enumerate in Hin. destruct Hin as [Hi Hw].
  apply listing_line_one_line; [cbn; lia|].
  cbn [snd]. exact (find_words_letters _ _ _ _ Hw).
Qed.



(** X9: with an accepted length, standard output holds exactly as many
    line feeds as words were found: one line for each word, none when
    nothing was found. *)
Theorem main_line_count (prog usage : pystr) (ns : Namespace.t)
    (sigma : store) :
  0 <= Namespace.len ns ->
  count_occ N.eq_dec (stdout (fst (main prog usage ns sigma))) LF
  = length (fst (find_words (Namespace.len ns) (Namespace.file ns) sigma)).
Proof. apply main_count. Qed.

Lemma main_line_count_witness :
  0 <= Namespace.len (Namespace.mk [0%nat] 3)
  /\ count_occ N.eq_dec
       (stdout (fst (main finder_prog finder_usage (Namespace.mk [0%nat] 3)
                       (store_of [fox])))) LF
     = 4%nat.
Proof.
  assert (H : 0 <= Namespace.len (Namespace.mk [0%nat] 3)) by (cbn; lia).
  split; [exact H|].
  rewrite (@main_line_count finder_prog finder_usage _ (store_of [fox]) H).
  vm_compute. reflexivity.
Defined.

(** X11: a negative length is refused before any stream is read, so every
    stream is left as it was; with an accepted length every [FILE] stream
    is read to its end, whether or not a word is found, and no other
    stream is touched. *)
Theorem main_streams (prog usage : pystr) (ns : Namespace.t)
    (sigma : store) (h : handle) :
  snd (main prog usage ns sigma) h
  = if Z.ltb (Namespace.len ns) 0 then sigma h
    else if in_dec Nat.eq_dec h (Namespace.file ns) then [] else sigma h.
Proof.
  destruct (Z.ltb_spec (Namespace.len ns) 0) as [Hneg|Hok].
  - now rewrite main_rejected by exact Hneg.
  - rewrite main_accepted by exact Hok. cbn [snd].
    rewrite find_words_eq. cbn [snd]. apply exhaust_at.
Qed.

(** X13: the order of the [FILE] arguments changes neither the exit
    status, nor what goes to standard error, nor the number of lines
    printed. *)
Theorem main_permuted (prog usage : pystr) (files files' : list handle)
    (len : Z) (sigma : store) :
  Permutation files files' ->
  let out := fst (main prog usage (Namespace.mk files len) sigma) in
  let out' := fst (main prog usage (Namespace.mk files' len) sigma) in
  status out = status out'
  /\ stderr out = stderr out'
  /\ count_occ N.eq_dec (stdout out) LF = count_occ N.eq_dec (stdout out') LF.
Proof.
  intros HP out out'. subst out out'.
  destruct (Z.lt_ge_cases len 0) as [Hneg|Hok].
  - rewrite !main_rejected by exact Hneg. repeat split.
  - assert (H : 0 <= Namespace.len (Namespace.mk files len)) by exact Hok.
    assert (H' : 0 <= Namespace.len (Namespace.mk files' len)) by exact Hok.
    rewrite !main_count by assumption.
    rewrite !main_accepted by assumption.
    cbn [fst Namespace.len Namespace.file].
    pose proof (find_words_perm len sigma HP) as Hperm.
    destruct (fst (find_words len files sigma)) as [|w ws];
      destruct (fst (find_words len files' sigma)) as [|w' ws'].
    + repeat split.
    + apply Permutation_nil in Hperm. discriminate Hperm.
    + apply Permutation_sym, Permutation_nil in Hperm. discriminate Hperm.
    + cbn [status stderr]. repeat split.
      now apply Permutation_length.
Qed.

Lemma main_permuted_witness :
  Permutation [0%nat; 1%nat] [1%nat; 0%nat]
  /\ status (fst (main finder_prog finder_usage
                    (Namespace.mk [0%nat; 1%nat] 3)
                    (store_of [fox; py "cat"])))
     = status (fst (main finder_prog finder_usage
                      (Namespace.mk [1%nat; 0%nat] 3)
                      (store_of [fox; py "cat"]))).
Proof.
  split; [apply perm_swap|].
  exact (proj1 (@main_permuted finder_prog finder_usage [0%nat; 1%nat]
                  [1%nat; 0%nat] 3 (store_of [fox; py "cat"])
                  (perm_swap _ _ _))).
Defined.

(* ------------------------------------------------------------------ *)
(** *** The columns of the listing *)

Lemma str_of_int_upto_999 (i : Z) :
  0 <= i <= 999 -> (length (str_of_int i) <= 3)%nat.
Proof.
  intros Hi.
  assert (Hall : forallb (fun k => Nat.leb (length (str_of_int (Z.of_nat k))) 3)
                         (seq 0 1000) = true)
    by (vm_compute; reflexivity).
  rewrite forallb_forall in Hall.
  specialize (Hall (Z.to_nat i)). rewrite Z2Nat.id in Hall by lia.
  apply Nat.leb_le, Hall, in_seq. lia.
Qed.

Lemma rjust_length (w : nat) (s : pystr) :
  (length s <= w)%nat -> length (rjust w s) = w.
Proof.
  intros H. unfold rjust. rewrite length_app, repeat_length. lia.
Qed.

Lemma find_words_length_nat (L : Z) (fhs : list handle) (sigma : store)
    (w : pystr) :
  In w (fst (find_words L fhs sigma)) -> length w = Z.to_nat L.
Proof.
  intros Hin. rewrite find_words_eq in Hin. cbn [fst] in Hin.
  apply filter_In in Hin. destruct Hin as [_ Hacc].
  apply accept_true in Hacc. lia.
Qed.

(** X10: the listing is aligned.  With an accepted length, standard
    output is the lines of the listing, each ended by a line feed, and in
    every line numbered up to 999 the word starts after exactly five
    columns (three for the number, then a colon and a space), so all these
    lines have the same width, five more than the requested length.  From
    line 1000 on the number takes a fourth column and the word starts one
    column later. *)
Theorem main_columns (prog usage : pystr) (ns : Namespace.t)
    (sigma : store) :
  0 <= Namespace.len ns ->
  let words := fst (find_words (Namespace.len ns) (Namespace.file ns) sigma) in
  stdout (fst (main prog usage ns sigma))
  = concat (map (fun iw => listing_line iw ++ [LF]) (enumerate 1 words))
  /\ Forall (fun iw =>
               fst iw <= 999 ->
               skipn 5 (listing_line iw) = snd iw
               /\ length (listing_line iw)
                  = (5 + Z.to_nat (Namespace.len ns))%nat)
            (enumerate 1 words)
  /\ (forall w, listing_line (1000, w) = py "1000: " ++ w).
Proof.
  intros Hlen words. split; [now apply main_stdout|].
  split; [|reflexivity].
  apply Forall_forall. intros [i w] Hin Hi. cbn [fst snd] in *.
  apply in_enumerate in Hin. destruct Hin as [Hi1 Hw].
  apply find_words_length_nat in Hw.
  assert (Hpre : length (rjust 3 (str_of_int i) ++ py ": ") = 5%nat).
  { rewrite length_app, rjust_length; [reflexivity|].
    apply str_of_int_upto_999. lia. }
  unfold listing_line. cbn [fst snd]. rewrite app_assoc. split.
  - rewrite skipn_app, Hpre, Nat.sub_diag.
    rewrite skipn_all2 by (rewrite Hpre; lia). reflexivity.
  - rewrite length_app, Hpre, Hw. reflexivity.
Qed.

Lemma main_columns_witness :
  0 <= Namespace.len (Namespace.mk [0%nat] 4)
  /\ Forall (fun iw =>
               fst iw <= 999 ->
               skipn 5 (listing_line iw) = snd iw
               /\ length (listing_line iw) = 9%nat)
            (enumerate 1 (fst (find_words 4 [0%nat] (store_of [fox])))).
Proof.
  assert (H : 0 <= Namespace.len (Namespace.mk [0%nat] 4)) by (cbn; lia).
  split; [exact H|].
  exact (proj1 (proj2 (@main_columns finder_prog finder_usage _
                         (store_of [fox]) H))).
Defined.

(** X14: files that are empty or hold only whitespace make the program
    end with status 1 and the message that no words were found, for every
    accepted length, 0 included; nothing is printed on standard output. *)
Theorem main_blank_files (prog usage : pystr) (ns : Namespace.t)
    (sigma : store) :
  0 <= Namespace.len ns ->
  (forall fh, In fh (Namespace.file ns) -> blank (sigma fh) = true) ->
  fst (main prog usage ns sigma)
  = {| stdout := [];
       stderr := py "Found no words of length "
                   ++ str_of_int (Namespace.len ns) ++ py "!" ++ [LF];
       status := 1 |}.
Proof.
  intros Hlen Hblank. rewrite main_accepted by exact Hlen. cbn [fst].
  rewrite (find_words_blank _ _ _ Hblank).
  unfold none_message. now rewrite <- !app_assoc.
Qed.

Lemma main_blank_files_witness :
  0 <= Namespace.len (Namespace.mk [0%nat] 0)
  /\ (forall fh, In fh (Namespace.file (Namespace.mk [0%nat] 0)) ->
                 blank (store_of [[LF; LF]] fh) = true)
  /\ status (fst (main finder_prog finder_usage (Namespace.mk [0%nat] 0)
                     (store_of [[LF; LF]]))) = 1.
Proof.
  assert (Hlen : 0 <= Namespace.len (Namespace.mk [0%nat] 0)) by (cbn; lia).
  assert (Hblank : forall fh,
             In fh (Namespace.file (Namespace.mk [0%nat] 0)) ->
             blank (store_of [[LF; LF]] fh) = true).
  { intros fh [<-|[]]. reflexivity. }
  split; [exact Hlen|]. split; [exact Hblank|].
  now rewrite (@main_blank_files finder_prog finder_usage _ _ Hlen Hblank).
Defined.
